(** * electron-trackpad-detect: the stub binding for non-macOS platforms

    A shallow embedding of
    [webapp/native-modules/electron-trackpad-detect/src/stub.cc] and of the
    part of the Node-API object model the file touches, followed by the
    properties the specification states about the four exported operations
    and about module initialisation.  The first part knows plain objects
    only, which is what Node hands to [Init]; module [Js] adds the exports
    objects a host can prepare itself. *)

From stdpp Require Import base option list strings gmap.

(** ** The Node-API object model

    JavaScript objects live in a store and are known by their identity, so
    that two handles to one object see each other's writes.  A primitive
    value is carried by the handle itself.  [napi.h] belongs to
    node-addon-api, not to the repository: the operations below follow what
    Node-API documents for the calls [stub.cc] makes. *)

Module Napi.

Definition loc := positive.

(** [Napi::Env]: the handle of the running JavaScript environment. *)
Record Env := mkEnv { env_id : positive }.

(** [Napi::Value].  Numbers are carried as integers, the stub never
    inspects one. *)
Inductive Value :=
| VUndefined
| VNull
| VBoolean (b : bool)
| VNumber (z : Z)
| VString (s : string)
| VObject (l : loc).

(** The native functions of the translation unit, as code addresses: what
    [Napi::Function::New] stores in a function object. *)
Inductive Callback :=
| cb_StartMonitoring
| cb_StopMonitoring
| cb_IsTrackpadScroll
| cb_IsMonitoring.

(** An object: its own data properties and, for a function object, the
    native code behind it. *)
Record JsObject := mkObject {
  props : gmap string Value;
  native : option Callback
}.

Abbreviation Store := (gmap loc JsObject).

(** [Napi::CallbackInfo]: what a native function receives on a call. *)
Record CallbackInfo := mkInfo {
  info_Env : Env;
  info_This : Value;
  info_Args : list Value
}.

(** [Napi::Error], thrown by the C++ wrappers when a Node-API call does not
    answer [napi_ok], the [TypeError] of calling a non-function, and an
    exception thrown by JavaScript code of the host. *)
Inductive Error :=
| ObjectExpected
| NotAFunction
| HostError.

(** A computation either returns or throws; both leave a store behind. *)
Inductive Outcome (A : Type) :=
| Returned (a : A) (st : Store)
| Thrown (e : Error) (st : Store).
Arguments Returned {A} a st.
Arguments Thrown {A} e st.

Definition M (A : Type) : Type := Store → Outcome A.

Definition ret {A} (a : A) : M A := λ st, Returned a st.

Definition bind {A B} (m : M A) (k : A → M B) : M B :=
  λ st, match m st with
        | Returned a st' => k a st'
        | Thrown e st' => Thrown e st'
        end.

(** What an outcome shows to the caller. *)
Definition returned {A} (o : Outcome A) : option A :=
  match o with Returned a _ => Some a | Thrown _ _ => None end.

Definition raised {A} (o : Outcome A) : option Error :=
  match o with Returned _ _ => None | Thrown e _ => Some e end.

Definition store_of {A} (o : Outcome A) : Store :=
  match o with Returned _ st => st | Thrown _ st => st end.

(** [Napi::Boolean::New(env, b)]: the environment's boolean singleton
    ([napi_get_boolean]); it allocates nothing. *)
Definition Boolean_New (env : Env) (b : bool) : M Value := ret (VBoolean b).

(** [env.Undefined()]: the environment's [undefined]
    ([napi_get_undefined]). *)
Definition Env_Undefined (env : Env) : M Value := ret VUndefined.

(** Allocation of a new object at an identity the store does not use. *)
Definition alloc (o : JsObject) : M loc :=
  λ st, let l := fresh (dom st) in Returned l (<[l := o]> st).

(** [Napi::Object::New(env)]: a new object without own properties. *)
Definition Object_New (env : Env) : M loc := alloc (mkObject ∅ None).

(** [Napi::Function::New(env, cb)]: a new function object running [cb].
    [props] holds what the program sets on an object: the properties every
    function is born with ([length], [name], [prototype] and the like) are
    not listed in it. *)
Definition Function_New (env : Env) (cb : Callback) : M loc :=
  alloc (mkObject ∅ (Some cb)).

(** [obj.Set(key, value)] ([napi_set_property]) on a plain object, one that
    is extensible and has writable data properties only: the own data
    property [key] is created or overwritten, everything else of the object
    stays.  A handle that names no object is refused.  The assignment to an
    object the host has frozen or guarded is [Js.Object_Set] below. *)
Definition Object_Set (obj : loc) (key : string) (v : Value) : M () :=
  λ st, match st !! obj with
        | Some o => Returned () (<[obj := mkObject (<[key := v]> (props o)) (native o)]> st)
        | None => Thrown ObjectExpected st
        end.

(** [obj.Get(key)] ([napi_get_property]): an absent property reads as
    [undefined]. *)
Definition Object_Get (obj : loc) (key : string) : M Value :=
  λ st, match st !! obj with
        | Some o => Returned (default VUndefined (props o !! key)) st
        | None => Thrown ObjectExpected st
        end.

End Napi.

Export Napi.

Declare Scope napi_scope.
Delimit Scope napi_scope with napi.
Notation "x <- m ;; k" := (bind m (λ x, k))
  (at level 100, m at next level, right associativity) : napi_scope.
Notation "m ;;; k" := (bind m (λ _, k))
  (at level 100, right associativity) : napi_scope.
Local Open Scope napi_scope.

(** ** The translation unit [stub.cc] *)

Definition StartMonitoring (info : CallbackInfo) : M Value :=
  Boolean_New (info_Env info) false.

Definition StopMonitoring (info : CallbackInfo) : M Value :=
  Env_Undefined (info_Env info).

Definition IsTrackpadScroll (info : CallbackInfo) : M Value :=
  Boolean_New (info_Env info) false.

Definition IsMonitoring (info : CallbackInfo) : M Value :=
  Boolean_New (info_Env info) false.

Definition Init (env : Env) (exports : loc) : M loc :=
  f <- Function_New env cb_StartMonitoring ;;
  Object_Set exports "startMonitoring" (VObject f) ;;;
  f <- Function_New env cb_StopMonitoring ;;
  Object_Set exports "stopMonitoring" (VObject f) ;;;
  f <- Function_New env cb_IsTrackpadScroll ;;
  Object_Set exports "isTrackpadScroll" (VObject f) ;;;
  f <- Function_New env cb_IsMonitoring ;;
  Object_Set exports "isMonitoring" (VObject f) ;;;
  ret exports.

(** [NODE_API_MODULE(trackpad_detect, Init)], as Node-API registers a
    module: on load the host creates the
    module's empty exports object, runs [Init] on it, and the object [Init]
    returns becomes what the host sees as the module. *)
Definition NODE_API_MODULE (env : Env) : M loc :=
  exports <- Object_New env ;;
  Init env exports.

(** ** The host side of the binding

    The host reaches a native function through the function object that
    [Init] stored: the wrapper installed by [Napi::Function::New] builds the
    [CallbackInfo] and jumps to the code address kept in the object. *)

Definition invoke (cb : Callback) : CallbackInfo → M Value :=
  match cb with
  | cb_StartMonitoring => StartMonitoring
  | cb_StopMonitoring => StopMonitoring
  | cb_IsTrackpadScroll => IsTrackpadScroll
  | cb_IsMonitoring => IsMonitoring
  end.

(** [f.apply(this, args)] as JavaScript evaluates it. *)
Definition Function_Call (env : Env) (f this : Value) (args : list Value) : M Value :=
  λ st, match f with
        | VObject l =>
            match st !! l ≫= native with
            | Some cb => invoke cb (mkInfo env this args) st
            | None => Thrown NotAFunction st
            end
        | _ => Thrown NotAFunction st
        end.

(** The four operations, as the host names them. *)
Inductive Operation :=
| startMonitoring
| stopMonitoring
| isTrackpadScroll
| isMonitoring.

Definition name_of (op : Operation) : string :=
  match op with
  | startMonitoring => "startMonitoring"
  | stopMonitoring => "stopMonitoring"
  | isTrackpadScroll => "isTrackpadScroll"
  | isMonitoring => "isMonitoring"
  end.

(** One call of the host: an operation and the argument list it passes. *)
Record Call := mkCall {
  callee : Operation;
  arguments : list Value
}.

(** [module.op(args...)]: read the property, call what it holds with the
    module as receiver. *)
Definition perform (env : Env) (module : loc) (c : Call) : M Value :=
  f <- Object_Get module (name_of (callee c)) ;;
  Function_Call env f (VObject module) (arguments c).

(** A sequence of calls, run in order; an error ends the sequence. *)
Fixpoint script (env : Env) (module : loc) (cs : list Call) : M (list Value) :=
  match cs with
  | [] => ret []
  | c :: cs' =>
      v <- perform env module c ;;
      vs <- script env module cs' ;;
      ret (v :: vs)
  end.

(** A whole session of a host: load the module, then make the calls. *)
Definition session (env : Env) (cs : list Call) : M (list Value) :=
  module <- NODE_API_MODULE env ;;
  script env module cs.

(** ** The interface as the specification words it *)

Inductive ReturnType := boolean | void.

(** [startMonitoring() -> boolean], [stopMonitoring() -> void],
    [isTrackpadScroll() -> boolean], [isMonitoring() -> boolean]. *)
Definition signature (op : Operation) : ReturnType :=
  match op with
  | startMonitoring => boolean
  | stopMonitoring => void
  | isTrackpadScroll => boolean
  | isMonitoring => boolean
  end.

Definition interface : list (string * ReturnType) :=
  (λ op, (name_of op, signature op)) <$>
    [startMonitoring; stopMonitoring; isTrackpadScroll; isMonitoring].

(** A value of a return type: a JavaScript boolean, or no value at all. *)
Definition has_type (v : Value) (t : ReturnType) : bool :=
  match t, v with
  | boolean, VBoolean _ => true
  | void, VUndefined => true
  | _, _ => false
  end.

(** The fixed answer of each operation in the specification's table. *)
Definition constant (op : Operation) : Value :=
  match op with
  | startMonitoring => VBoolean false
  | stopMonitoring => VUndefined
  | isTrackpadScroll => VBoolean false
  | isMonitoring => VBoolean false
  end.

(** The native function the host expects behind each name. *)
Definition callback_of (op : Operation) : Callback :=
  match op with
  | startMonitoring => cb_StartMonitoring
  | stopMonitoring => cb_StopMonitoring
  | isTrackpadScroll => cb_IsTrackpadScroll
  | isMonitoring => cb_IsMonitoring
  end.

(** The module at [module] offers the four operations in store [st]: each
    name is an own property holding a function object that runs the native
    function of that name. *)
Definition Installed (st : Store) (module : loc) : Prop :=
  ∃ o, st !! module = Some o ∧
    ∀ op, ∃ f fo,
      props o !! name_of op = Some (VObject f) ∧
      st !! f = Some fo ∧
      native fo = Some (callback_of op).

(** ** What the properties below are stated with *)

(** The store a host works in once the module is loaded. *)
Definition loaded (env : Env) (st : Store) : Store :=
  store_of (NODE_API_MODULE env st).

(** The value the call at position [n] of a session produced. *)
Definition result_at (n : nat) (o : Outcome (list Value)) : option Value :=
  returned o ≫= (.!! n).

(** The answers the specification's table gives to a sequence of calls. *)
Definition expected (cs : list Call) : list Value :=
  (λ c, constant (callee c)) <$> cs.

(** What [Init] leaves behind, for exports object [o] at [exports] in [st]:
    the four function objects are new, the exports object has gained the
    four properties, and no other object has been touched. *)
Record Init_post (st : Store) (exports : loc) (o : JsObject)
    (f1 f2 f3 f4 : loc) (st' : Store) : Prop := {
  post_new : st !! f1 = None ∧ st !! f2 = None ∧ st !! f3 = None ∧ st !! f4 = None;
  post_distinct : NoDup [f1; f2; f3; f4];
  post_exports :
    st' !! exports = Some (mkObject
      (<["isMonitoring" := VObject f4]>
        (<["isTrackpadScroll" := VObject f3]>
          (<["stopMonitoring" := VObject f2]>
            (<["startMonitoring" := VObject f1]> (props o)))))
      (native o));
  post_f1 : st' !! f1 = Some (mkObject ∅ (Some cb_StartMonitoring));
  post_f2 : st' !! f2 = Some (mkObject ∅ (Some cb_StopMonitoring));
  post_f3 : st' !! f3 = Some (mkObject ∅ (Some cb_IsTrackpadScroll));
  post_f4 : st' !! f4 = Some (mkObject ∅ (Some cb_IsMonitoring));
  post_frame : ∀ l, l ≠ exports → l ∉ [f1; f2; f3; f4] → st' !! l = st !! l
}.

(** An exports object that has a property already. *)
Definition st_with_exports : Store :=
  {[ 5%positive := mkObject {[ "version" := VNumber 1 ]} None ]}.

(** The environment of the concrete runs below. *)
Definition env0 : Env := mkEnv 1.

(** The value an object holds under a name of its own, if any. *)
Definition own_property (st : Store) (obj : loc) (key : string) : option Value :=
  st !! obj ≫= λ o, props o !! key.

(** An exports object on which the name [isMonitoring] is taken already,
    by a value that is no function. *)
Definition st_with_stale_binding : Store :=
  {[ 5%positive := mkObject {[ "isMonitoring" := VBoolean true ]} None ]}.


(** ** Exports objects that are not plain

    [napi_set_property] is the JavaScript assignment [obj[key] = value],
    made without strict mode.  On the object Node creates for a module it
    writes an own data property, which is [Object_Set] above.  A host that
    loads the binding with an exports object of its own ([process.dlopen])
    may have frozen the object, made a property read-only or put an
    accessor under a name: the assignment is then dropped without an error,
    or runs the host's setter.  What the host did to an object is kept
    beside the store, as the object's shape; an object without a shape is
    plain. *)

Module Js.

(** The setter of an accessor property: code of the host, run with the
    assigned value. *)
Definition Setter := Value → M ().

(** What the assignment to a name finds, on the object or up its prototype
    chain, when it is not a writable data property. *)
Inductive Guard :=
| ReadOnly
| Accessor (setter : option Setter).

Record Shape := mkShape {
  extensible : bool;
  guards : gmap string Guard
}.

Abbreviation Shapes := (gmap loc Shape).

(** [Object.freeze(o)]: no new property, every own property read-only. *)
Definition frozen (o : JsObject) : Shape :=
  mkShape false (gset_to_gmap ReadOnly (dom (props o))).

(** [obj.Set(key, value)] on any object: a read-only property and an
    accessor without setter drop the assignment, a setter runs in its
    place, and a name the object does not own is added only to an
    extensible object.  No error is raised for a dropped assignment. *)
Definition Object_Set (sh : Shapes) (obj : loc) (key : string) (v : Value) : M () :=
  λ st, match st !! obj with
        | None => Thrown ObjectExpected st
        | Some o =>
            match sh !! obj with
            | None => Napi.Object_Set obj key v st
            | Some s =>
                match guards s !! key with
                | Some ReadOnly => Returned () st
                | Some (Accessor None) => Returned () st
                | Some (Accessor (Some setter)) => setter v st
                | None =>
                    if extensible s || bool_decide (is_Some (props o !! key))
                    then Napi.Object_Set obj key v st
                    else Returned () st
                end
            end
        end.

(** [Init] of [stub.cc], on an exports object of any shape. *)
Definition Init (sh : Shapes) (env : Env) (exports : loc) : M loc :=
  f <- Function_New env cb_StartMonitoring ;;
  Object_Set sh exports "startMonitoring" (VObject f) ;;;
  f <- Function_New env cb_StopMonitoring ;;
  Object_Set sh exports "stopMonitoring" (VObject f) ;;;
  f <- Function_New env cb_IsTrackpadScroll ;;
  Object_Set sh exports "isTrackpadScroll" (VObject f) ;;;
  f <- Function_New env cb_IsMonitoring ;;
  Object_Set sh exports "isMonitoring" (VObject f) ;;;
  ret exports.

(** The assignment to [key] writes an own data property of the object [o]
    at [obj]: no guard is in its way, and the object is extensible or owns
    the name already. *)
Definition assignable (sh : Shapes) (obj : loc) (o : JsObject) (key : string) : Prop :=
  match sh !! obj with
  | None => True
  | Some s =>
      guards s !! key = None ∧
      (extensible s = true ∨ is_Some (props o !! key))
  end.

End Js.

(** An exports object that owns the four names already, and the shape of
    an object that takes no new property. *)
Definition exports_with_four_names : JsObject :=
  mkObject {[ "startMonitoring" := VNull; "stopMonitoring" := VNull;
              "isTrackpadScroll" := VNull; "isMonitoring" := VBoolean true ]}
           None.

Definition st_with_four_names : Store :=
  {[ 5%positive := exports_with_four_names ]}.

Definition sh_not_extensible : Js.Shapes :=
  {[ 5%positive := Js.mkShape false ∅ ]}.

(** The exports object of [st_with_exports], frozen by the host. *)
Definition sh_frozen : Js.Shapes :=
  {[ 5%positive := Js.frozen (mkObject {[ "version" := VNumber 1 ]} None) ]}.

(** An extensible exports object whose property [version] is read-only. *)
Definition sh_version_locked : Js.Shapes :=
  {[ 5%positive := Js.mkShape true {[ "version" := Js.ReadOnly ]} ]}.

(** The exports object of [st_with_stale_binding], its [isMonitoring]
    read-only. *)
Definition sh_isMonitoring_locked : Js.Shapes :=
  {[ 5%positive := Js.mkShape true {[ "isMonitoring" := Js.ReadOnly ]} ]}.

(** An exports object on which the host put a setter that throws under the
    name [isTrackpadScroll]. *)
Definition sh_throwing_setter : Js.Shapes :=
  {[ 5%positive :=
       Js.mkShape true
         {[ "isTrackpadScroll" := Js.Accessor (Some (λ _ st, Thrown HostError st)) ]} ]}.

Example session_start_then_query :
  returned (session env0 [mkCall startMonitoring []; mkCall isMonitoring []] ∅)
  = Some [VBoolean false; VBoolean false].
Proof. vm_compute. reflexivity. Qed.

Example session_stop_alone :
  returned (session env0 [mkCall stopMonitoring []] ∅) = Some [VUndefined].
Proof. vm_compute. reflexivity. Qed.

Example session_with_arguments :
  returned (session env0
    [mkCall isTrackpadScroll [VNumber 3; VString "wheel"];
     mkCall stopMonitoring [VNull];
     mkCall startMonitoring [VBoolean true]] ∅)
  = Some [VBoolean false; VUndefined; VBoolean false].
Proof. vm_compute. reflexivity. Qed.

(** Calling a name the module does not offer is a [TypeError]. *)
Example call_of_absent_property :
  raised (bind (Object_New env0) (λ m,
            bind (Object_Get m "isMonitoring") (λ f,
              Function_Call env0 f (VObject m) [])) ∅)
  = Some NotAFunction.
Proof. vm_compute. reflexivity. Qed.

(** [Init] needs its exports object: on a handle that names none, the first
    [Set] is refused. *)
Example Init_without_exports_object :
  raised (Init env0 7%positive ∅) = Some ObjectExpected.
Proof. vm_compute. reflexivity. Qed.

(** A read-only [isMonitoring] keeps its value: [Init] returns, the other
    three names are bound, and calling [isMonitoring] is a [TypeError]. *)
Example Init_with_read_only_name :
  let out := Js.Init sh_isMonitoring_locked env0 5%positive st_with_stale_binding in
  returned out = Some 5%positive
  ∧ own_property (store_of out) 5%positive "startMonitoring" = Some (VObject 6%positive)
  ∧ own_property (store_of out) 5%positive "stopMonitoring" = Some (VObject 7%positive)
  ∧ own_property (store_of out) 5%positive "isTrackpadScroll" = Some (VObject 8%positive)
  ∧ own_property (store_of out) 5%positive "isMonitoring" = Some (VBoolean true)
  ∧ raised (perform env0 5%positive (mkCall isMonitoring []) (store_of out))
    = Some NotAFunction.
Proof. vm_compute. repeat split. Qed.

(** A setter that throws under [isTrackpadScroll] ends [Init] there: the
    first two names are bound, the last is not. *)
Example Init_with_throwing_setter :
  let out := Js.Init sh_throwing_setter env0 5%positive st_with_exports in
  raised out = Some HostError
  ∧ own_property (store_of out) 5%positive "startMonitoring" = Some (VObject 6%positive)
  ∧ own_property (store_of out) 5%positive "stopMonitoring" = Some (VObject 7%positive)
  ∧ own_property (store_of out) 5%positive "isTrackpadScroll" = None
  ∧ own_property (store_of out) 5%positive "isMonitoring" = None.
Proof. vm_compute. repeat split. Qed.

(** ** Facts about the object model *)

Lemma bind_Returned {A B} (m : M A) (k : A → M B) st a st' :
  m st = Returned a st' → bind m k st = k a st'.
Proof. intros Hm. unfold bind. by rewrite Hm. Qed.

Lemma fresh_unused (st : Store) : st !! fresh (dom st) = None.
Proof. apply not_elem_of_dom, is_fresh. Qed.

Lemma invoke_callback_of op info st :
  invoke (callback_of op) info st = Returned (constant op) st.
Proof. by destruct op. Qed.

Lemma constant_has_type op : has_type (constant op) (signature op) = true.
Proof. by destruct op. Qed.

(** ** One registration: [exports.Set(key, Napi::Function::New(env, cb))] *)

Section Registration.
Context (env : Env).

Lemma register_step {A} exports key cb o (k : M A) (st : Store) :
  st !! exports = Some o →
  ∃ f, st !! f = None ∧
    bind (Function_New env cb) (λ f, bind (Object_Set exports key (VObject f)) (λ _, k)) st
    = k (<[exports := mkObject (<[key := VObject f]> (props o)) (native o)]>
           (<[f := mkObject ∅ (Some cb)]> st)).
Proof.
  intros Hex. exists (fresh (dom st)). split; [apply fresh_unused|].
  assert (fresh (dom st) ≠ exports) as Hne.
  { intros Heq. rewrite <- Heq, fresh_unused in Hex. done. }
  unfold bind, Function_New, alloc, Object_Set; simpl.
  rewrite lookup_insert_ne by done. by rewrite Hex.
Qed.

Lemma Init_spec exports o (st : Store) :
  st !! exports = Some o →
  ∃ f1 f2 f3 f4 st',
    Init env exports st = Returned exports st' ∧
    Init_post st exports o f1 f2 f3 f4 st'.
Proof.
  intros Hex. unfold Init.
  edestruct (register_step (A:=loc) exports "startMonitoring" cb_StartMonitoring)
    as (f1 & Hf1 & ->); [exact Hex|].
  edestruct (register_step (A:=loc) exports "stopMonitoring" cb_StopMonitoring)
    as (f2 & Hf2 & ->); [apply lookup_insert_eq|].
  edestruct (register_step (A:=loc) exports "isTrackpadScroll" cb_IsTrackpadScroll)
    as (f3 & Hf3 & ->); [apply lookup_insert_eq|].
  edestruct (register_step (A:=loc) exports "isMonitoring" cb_IsMonitoring)
    as (f4 & Hf4 & ->); [apply lookup_insert_eq|].
  simpl in *.
  repeat match goal with
         | H : <[_ := _]> _ !! _ = None |- _ =>
             apply lookup_insert_None in H; destruct H
         end.
  eexists f1, f2, f3, f4, _. split; [reflexivity|].
  split.
  - done.
  - rewrite !NoDup_cons, !not_elem_of_cons. repeat split; try done; apply NoDup_nil_2 || apply not_elem_of_nil.
  - apply lookup_insert_eq.
  - by simplify_map_eq.
  - by simplify_map_eq.
  - by simplify_map_eq.
  - by simplify_map_eq.
  - intros l Hl Hn.
    rewrite !not_elem_of_cons in Hn. destruct Hn as (? & ? & ? & ? & _).
    by simplify_map_eq.
Qed.

End Registration.

(** ** Calls on an installed module *)

Lemma Init_post_Installed st exports o f1 f2 f3 f4 st' :
  Init_post st exports o f1 f2 f3 f4 st' → Installed st' exports.
Proof.
  intros [_ _ Hex H1 H2 H3 H4 _].
  eexists. split; [exact Hex|]. simpl.
  intros []; [exists f1 | exists f2 | exists f3 | exists f4];
    eexists; (split; [by simplify_map_eq | split; [eassumption | reflexivity]]).
Qed.

Lemma perform_Installed env module c st :
  Installed st module →
  perform env module c st = Returned (constant (callee c)) st.
Proof.
  intros (o & Hm & Hops). destruct (Hops (callee c)) as (f & fo & Hp & Hf & Hcb).
  unfold perform, bind, Object_Get, Function_Call.
  rewrite Hm, Hp; simpl. rewrite Hf; simpl. rewrite Hcb.
  apply invoke_callback_of.
Qed.

Lemma script_Installed env module cs st :
  Installed st module →
  script env module cs st = Returned (expected cs) st.
Proof.
  intros Hinst. induction cs as [|c cs IH]; [reflexivity|].
  cbn [script]. erewrite bind_Returned by (by apply perform_Installed).
  erewrite bind_Returned by exact IH. reflexivity.
Qed.

(** Loading always succeeds: the exports object the host creates is new, and
    [Init] finds it in the store. *)
Lemma NODE_API_MODULE_spec env (st : Store) :
  ∃ module f1 f2 f3 f4 st',
    NODE_API_MODULE env st = Returned module st' ∧
    st !! module = None ∧
    Init_post (<[module := mkObject ∅ None]> st) module (mkObject ∅ None)
      f1 f2 f3 f4 st'.
Proof.
  unfold NODE_API_MODULE, Object_New.
  destruct (Init_spec env (fresh (dom st)) (mkObject ∅ None)
              (<[fresh (dom st) := mkObject ∅ None]> st))
    as (f1 & f2 & f3 & f4 & st' & HInit & Hpost); [apply lookup_insert_eq|].
  exists (fresh (dom st)), f1, f2, f3, f4, st'.
  split; [|split; [apply fresh_unused | exact Hpost]].
  erewrite bind_Returned by reflexivity. exact HInit.
Qed.

Lemma session_spec env cs st :
  session env cs st = Returned (expected cs) (loaded env st).
Proof.
  destruct (NODE_API_MODULE_spec env st)
    as (m & f1 & f2 & f3 & f4 & st' & Hload & _ & Hpost).
  unfold session, loaded. erewrite bind_Returned by exact Hload.
  rewrite Hload; simpl.
  apply script_Installed. eapply Init_post_Installed, Hpost.
Qed.

Lemma expected_at pre c post :
  expected (pre ++ c :: post) !! length pre = Some (constant (callee c)).
Proof.
  unfold expected. rewrite fmap_app, fmap_cons.
  rewrite lookup_app_r by (by rewrite length_fmap).
  by rewrite length_fmap, Nat.sub_diag.
Qed.

Lemma session_result_at env st pre c post :
  result_at (length pre) (session env (pre ++ c :: post) st)
  = Some (constant (callee c)).
Proof. rewrite session_spec. apply expected_at. Qed.

Lemma session_store env cs st : store_of (session env cs st) = loaded env st.
Proof. by rewrite session_spec. Qed.

Lemma session_raised env cs st : raised (session env cs st) = None.
Proof. by rewrite session_spec. Qed.

(** ** [Init] on an exports object of any shape *)

Lemma bind_ext {A B} (m m' : M A) (k k' : A → M B) st :
  m st = m' st → (∀ a st', k a st' = k' a st') →
  bind m k st = bind m' k' st.
Proof.
  intros Hm Hk. unfold bind. rewrite Hm. destruct (m' st); [apply Hk | done].
Qed.

Lemma Js_Object_Set_plain sh obj key v (st : Store) :
  sh !! obj = None →
  Js.Object_Set sh obj key v st = Object_Set obj key v st.
Proof.
  intros Hsh. unfold Js.Object_Set, Object_Set. rewrite Hsh.
  by destruct (st !! obj).
Qed.

Lemma Js_Object_Set_assignable sh obj o key v (st : Store) :
  st !! obj = Some o →
  Js.assignable sh obj o key →
  Js.Object_Set sh obj key v st = Object_Set obj key v st.
Proof.
  intros Ho Ha. unfold Js.Object_Set, Js.assignable in *. rewrite Ho.
  destruct (sh !! obj) as [s|]; [|done].
  destruct Ha as [-> [-> | Hown]]; [done|].
  rewrite (bool_decide_eq_true_2 _ Hown). by rewrite orb_true_r.
Qed.

Lemma assignable_insert sh obj o key key' v n :
  Js.assignable sh obj o key →
  Js.assignable sh obj (mkObject (<[key' := v]> (props o)) n) key.
Proof.
  unfold Js.assignable. destruct (sh !! obj) as [s|]; [|done].
  intros [Hg [He | Hown]]; (split; [done|]); [by left|right]. simpl.
  destruct (decide (key' = key)) as [->|Hne].
  - rewrite lookup_insert_eq. eauto.
  - by rewrite lookup_insert_ne.
Qed.

(** On a plain exports object the two readings of [Init] are one. *)
Lemma Js_Init_plain sh env exports (st : Store) :
  sh !! exports = None →
  Js.Init sh env exports st = Init env exports st.
Proof.
  intros Hsh. unfold Js.Init, Init.
  repeat (apply bind_ext; [try reflexivity; by apply Js_Object_Set_plain|]; intros).
  reflexivity.
Qed.

Lemma Js_register_step {A} sh env exports key cb o (k : M A) (st : Store) :
  st !! exports = Some o →
  Js.assignable sh exports o key →
  ∃ f, st !! f = None ∧
    bind (Function_New env cb)
      (λ f, bind (Js.Object_Set sh exports key (VObject f)) (λ _, k)) st
    = k (<[exports := mkObject (<[key := VObject f]> (props o)) (native o)]>
           (<[f := mkObject ∅ (Some cb)]> st)).
Proof.
  intros Hex Ha. exists (fresh (dom st)). split; [apply fresh_unused|].
  assert (fresh (dom st) ≠ exports) as Hne.
  { intros Heq. rewrite <- Heq, fresh_unused in Hex. done. }
  assert (<[fresh (dom st) := mkObject ∅ (Some cb)]> st !! exports = Some o) as Hex'
    by (by rewrite lookup_insert_ne).
  unfold bind, Function_New, alloc; simpl.
  rewrite (Js_Object_Set_assignable _ _ o) by done.
  unfold Object_Set. by rewrite Hex'.
Qed.

Lemma Js_Init_spec sh env exports o (st : Store) :
  st !! exports = Some o →
  (∀ op, Js.assignable sh exports o (name_of op)) →
  ∃ f1 f2 f3 f4 st',
    Js.Init sh env exports st = Returned exports st' ∧
    Init_post st exports o f1 f2 f3 f4 st'.
Proof.
  intros Hex Ha. unfold Js.Init.
  edestruct (Js_register_step (A:=loc) sh env exports "startMonitoring" cb_StartMonitoring)
    as (f1 & Hf1 & ->); [exact Hex | exact (Ha startMonitoring) |].
  edestruct (Js_register_step (A:=loc) sh env exports "stopMonitoring" cb_StopMonitoring)
    as (f2 & Hf2 & ->);
    [apply lookup_insert_eq | apply assignable_insert, (Ha stopMonitoring) |].
  edestruct (Js_register_step (A:=loc) sh env exports "isTrackpadScroll" cb_IsTrackpadScroll)
    as (f3 & Hf3 & ->);
    [apply lookup_insert_eq
    | do 2 apply (assignable_insert sh exports); apply (Ha isTrackpadScroll) |].
  edestruct (Js_register_step (A:=loc) sh env exports "isMonitoring" cb_IsMonitoring)
    as (f4 & Hf4 & ->);
    [apply lookup_insert_eq
    | do 3 apply (assignable_insert sh exports); apply (Ha isMonitoring) |].
  simpl in *.
  repeat match goal with
         | H : <[_ := _]> _ !! _ = None |- _ =>
             apply lookup_insert_None in H; destruct H
         end.
  eexists f1, f2, f3, f4, _. split; [reflexivity|].
  split.
  - done.
  - rewrite !NoDup_cons, !not_elem_of_cons.
    repeat split; try done; apply NoDup_nil_2 || apply not_elem_of_nil.
  - apply lookup_insert_eq.
  - by simplify_map_eq.
  - by simplify_map_eq.
  - by simplify_map_eq.
  - by simplify_map_eq.
  - intros l Hl Hn.
    rewrite !not_elem_of_cons in Hn. destruct Hn as (? & ? & ? & ? & _).
    by simplify_map_eq.
Qed.

(** ** The properties of the four operations *)

(** C1.  Whatever calls the host made before and makes after, and whatever
    arguments it passes, a call of [isMonitoring] returns the boolean
    [false]; the native function itself returns [false] on every
    [CallbackInfo] and in every store. *)
Theorem isMonitoring_returns_false env st pre args post :
  result_at (length pre) (session env (pre ++ mkCall isMonitoring args :: post) st)
    = Some (VBoolean false)
  ∧ ∀ info st', IsMonitoring info st' = Returned (VBoolean false) st'.
Proof.
  split; [|done]. by rewrite session_result_at.
Qed.

(** C2.  Whatever calls the host made before and makes after, and whatever
    arguments it passes, a call of [isTrackpadScroll] returns the boolean
    [false]. *)
Theorem isTrackpadScroll_returns_false env st pre args post :
  result_at (length pre) (session env (pre ++ mkCall isTrackpadScroll args :: post) st)
    = Some (VBoolean false)
  ∧ ∀ info st', IsTrackpadScroll info st' = Returned (VBoolean false) st'.
Proof.
  split; [|done]. by rewrite session_result_at.
Qed.

(** C3.  A call of [startMonitoring] returns the boolean [false], and it
    changes nothing for a later [isMonitoring]: with the call or without
    it, the later [isMonitoring] returns [false], the other calls of the
    session return what they returned, and the host is left with the same
    store. *)
Theorem startMonitoring_false_and_frame env st pre args mid args' post :
  let start := mkCall startMonitoring args in
  let query := mkCall isMonitoring args' in
  result_at (length pre) (session env (pre ++ start :: mid ++ query :: post) st)
    = Some (VBoolean false)
  ∧ result_at (length (pre ++ start :: mid))
      (session env ((pre ++ start :: mid) ++ query :: post) st)
    = Some (VBoolean false)
  ∧ result_at (length (pre ++ mid))
      (session env ((pre ++ mid) ++ query :: post) st)
    = Some (VBoolean false)
  ∧ returned (session env (pre ++ start :: mid ++ query :: post) st)
    = Some (expected pre ++ VBoolean false :: expected (mid ++ query :: post))
  ∧ returned (session env (pre ++ mid ++ query :: post) st)
    = Some (expected pre ++ expected (mid ++ query :: post))
  ∧ store_of (session env (pre ++ start :: mid ++ query :: post) st)
    = store_of (session env (pre ++ mid ++ query :: post) st).
Proof.
  intros start query. repeat split.
  - by rewrite session_result_at.
  - by rewrite session_result_at.
  - by rewrite session_result_at.
  - rewrite session_spec. unfold expected. by rewrite fmap_app.
  - rewrite session_spec. unfold expected. by rewrite fmap_app.
  - by rewrite !session_store.
Qed.

(** C4.  A call of [stopMonitoring] returns no value ([undefined]) and
    raises nothing, wherever it stands in a session and whatever arguments
    it gets; in particular as the only call, with no [startMonitoring]
    before it. *)
Theorem stopMonitoring_returns_nothing env st pre args post :
  result_at (length pre) (session env (pre ++ mkCall stopMonitoring args :: post) st)
    = Some VUndefined
  ∧ raised (session env (pre ++ mkCall stopMonitoring args :: post) st) = None
  ∧ returned (session env [mkCall stopMonitoring args] st) = Some [VUndefined]
  ∧ ∀ info st', StopMonitoring info st' = Returned VUndefined st'.
Proof.
  repeat split.
  - by rewrite session_result_at.
  - apply session_raised.
  - by rewrite session_spec.
Qed.

(** C5.  Loading the module yields an object whose own properties are
    exactly the four names of the interface; each name holds a function
    object that runs the native function of that name, and that function
    returns, on every call, a value of the type the interface declares for
    it: a boolean for [startMonitoring], [isTrackpadScroll] and
    [isMonitoring], no value for [stopMonitoring]. *)
Theorem exported_interface env st :
  ∃ module o,
    returned (NODE_API_MODULE env st) = Some module ∧
    loaded env st !! module = Some o ∧
    dom (props o) = list_to_set (interface.*1) ∧
    ∀ op, ∃ f fo,
      props o !! name_of op = Some (VObject f) ∧
      loaded env st !! f = Some fo ∧
      native fo = Some (callback_of op) ∧
      ∀ info st', ∃ v,
        invoke (callback_of op) info st' = Returned v st' ∧
        has_type v (signature op) = true.
Proof.
  destruct (NODE_API_MODULE_spec env st)
    as (m & f1 & f2 & f3 & f4 & st' & Hload & _ & Hpost).
  pose proof (Init_post_Installed _ _ _ _ _ _ _ _ Hpost) as (o & Hm & Hops).
  unfold loaded. rewrite Hload; simpl.
  exists m, o. split; [done|]. split; [done|]. split.
  - rewrite (post_exports _ _ _ _ _ _ _ _ Hpost) in Hm.
    injection Hm as <-. simpl.
    rewrite !dom_insert_L, dom_empty_L. set_solver.
  - intros op. destruct (Hops op) as (f & fo & Hp & Hf & Hcb).
    exists f, fo. repeat split; try done.
    intros info st''. exists (constant op).
    split; [apply invoke_callback_of | apply constant_has_type].
Qed.

(** C6.  No operation fails: every session runs to its end without raising,
    each call returning the fixed answer of its operation, and each native
    function returns that answer on every [CallbackInfo] in every store. *)
Theorem operations_never_fail env st cs :
  raised (session env cs st) = None
  ∧ returned (session env cs st) = Some (expected cs)
  ∧ ∀ op info st', invoke (callback_of op) info st' = Returned (constant op) st'.
Proof.
  split; [apply session_raised|]. split; [by rewrite session_spec|].
  intros. apply invoke_callback_of.
Qed.

(** C7.  Calls do not affect one another: in any interleaving, a call
    returns what it returns as the only call of a session, an operation of
    boolean result returns [false], and the store the host is left with is
    the one it had after loading the module. *)
Theorem calls_do_not_interfere env st pre c post :
  result_at (length pre) (session env (pre ++ c :: post) st)
    = result_at 0 (session env [c] st)
  ∧ (signature (callee c) = boolean →
     result_at (length pre) (session env (pre ++ c :: post) st)
       = Some (VBoolean false))
  ∧ store_of (session env (pre ++ c :: post) st) = loaded env st
  ∧ store_of (session env (pre ++ c :: post) st)
    = store_of (session env (pre ++ post) st).
Proof.
  repeat split.
  - rewrite session_result_at. by rewrite session_spec.
  - intros Hb. rewrite session_result_at. by destruct c as [[] ?].
  - apply session_store.
  - by rewrite !session_store.
Qed.

(** C8.  Every operation is idempotent and stateless: a call made twice in
    succession returns both times what the single call returns and leaves
    the store the single call leaves, and two calls of one operation return
    the same value, in whatever sessions and with whatever arguments they
    are made. *)
Theorem operations_idempotent env st pre c post :
  result_at (length pre) (session env (pre ++ c :: c :: post) st)
    = result_at (length pre) (session env (pre ++ c :: post) st)
  ∧ result_at (length (pre ++ [c])) (session env ((pre ++ [c]) ++ c :: post) st)
    = result_at (length pre) (session env (pre ++ c :: post) st)
  ∧ store_of (session env (pre ++ c :: c :: post) st)
    = store_of (session env (pre ++ c :: post) st)
  ∧ ∀ env' st' pre' args' post',
      result_at (length pre')
        (session env' (pre' ++ mkCall (callee c) args' :: post') st')
      = result_at (length pre) (session env (pre ++ c :: post) st).
Proof.
  repeat split.
  - by rewrite !session_result_at.
  - by rewrite !session_result_at.
  - by rewrite !session_store.
  - intros. by rewrite !session_result_at.
Qed.

(** C9.  The result of an operation does not depend on its arguments: run
    on two argument lists, each of the four native functions has the same
    outcome, and two sessions that differ in the arguments of one call
    return the same values. *)
Theorem result_independent_of_arguments env this args1 args2 st :
  StartMonitoring (mkInfo env this args1) st = StartMonitoring (mkInfo env this args2) st
  ∧ StopMonitoring (mkInfo env this args1) st = StopMonitoring (mkInfo env this args2) st
  ∧ IsTrackpadScroll (mkInfo env this args1) st = IsTrackpadScroll (mkInfo env this args2) st
  ∧ IsMonitoring (mkInfo env this args1) st = IsMonitoring (mkInfo env this args2) st
  ∧ ∀ op pre post,
      session env (pre ++ mkCall op args1 :: post) st
      = session env (pre ++ mkCall op args2 :: post) st.
Proof.
  repeat split.
  intros. rewrite !session_spec. unfold expected. by rewrite !fmap_app.
Qed.

(** On a frozen exports object every assignment of [Init] is dropped:
    [Init] returns the object, which is as it was and has none of the four
    properties. *)
Lemma Init_on_frozen_exports :
  returned (Js.Init sh_frozen env0 5%positive st_with_exports) = Some 5%positive
  ∧ store_of (Js.Init sh_frozen env0 5%positive st_with_exports) !! 5%positive
    = st_with_exports !! 5%positive
  ∧ own_property (store_of (Js.Init sh_frozen env0 5%positive st_with_exports))
      5%positive "startMonitoring" = None
  ∧ own_property (store_of (Js.Init sh_frozen env0 5%positive st_with_exports))
      5%positive "stopMonitoring" = None
  ∧ own_property (store_of (Js.Init sh_frozen env0 5%positive st_with_exports))
      5%positive "isTrackpadScroll" = None
  ∧ own_property (store_of (Js.Init sh_frozen env0 5%positive st_with_exports))
      5%positive "isMonitoring" = None.
Proof. vm_compute. repeat split. Qed.

(** C10, amended.  Run on an exports object of the store to which the four
    names can be assigned (under none of them a read-only property or an
    accessor, and the object extensible or owning the name already), [Init]
    returns that same object; the object has then the four properties
    [startMonitoring], [stopMonitoring], [isTrackpadScroll] and
    [isMonitoring], each holding a function object that runs the native
    function of its name, and every other property of it, and every other
    object of the store, is as it was. *)
Theorem Init_returns_exports sh env exports o (st : Store) :
  st !! exports = Some o →
  (∀ op, Js.assignable sh exports o (name_of op)) →
  ∃ f1 f2 f3 f4 o' st',
    Js.Init sh env exports st = Returned exports st' ∧
    st' !! exports = Some o' ∧
    props o' = <["isMonitoring" := VObject f4]>
                 (<["isTrackpadScroll" := VObject f3]>
                   (<["stopMonitoring" := VObject f2]>
                     (<["startMonitoring" := VObject f1]> (props o)))) ∧
    native o' = native o ∧
    st' !! f1 ≫= native = Some cb_StartMonitoring ∧
    st' !! f2 ≫= native = Some cb_StopMonitoring ∧
    st' !! f3 ≫= native = Some cb_IsTrackpadScroll ∧
    st' !! f4 ≫= native = Some cb_IsMonitoring ∧
    (∀ key, key ∉ name_of <$> [startMonitoring; stopMonitoring; isTrackpadScroll; isMonitoring] →
       props o' !! key = props o !! key) ∧
    (∀ l, l ≠ exports → is_Some (st !! l) → st' !! l = st !! l).
Proof.
  intros Hex Ha.
  destruct (Js_Init_spec sh env exports o st Hex Ha)
    as (f1 & f2 & f3 & f4 & st' & HInit & [Hnew Hdis He H1 H2 H3 H4 Hframe]).
  eexists f1, f2, f3, f4, _, st'.
  split; [exact HInit|]. split; [exact He|]. simpl.
  rewrite H1, H2, H3, H4; simpl.
  repeat (split; [done|]). split.
  - intros key Hkey. simpl in Hkey.
    rewrite !not_elem_of_cons in Hkey. destruct Hkey as (? & ? & ? & ? & _).
    by rewrite !lookup_insert_ne.
  - intros l Hl [x Hx]. apply Hframe; [done|].
    destruct Hnew as (? & ? & ? & ?).
    rewrite !not_elem_of_cons. repeat split; try congruence.
    apply not_elem_of_nil.
Qed.

Lemma Init_returns_exports_witness :
  st_with_exports !! 5%positive = Some (mkObject {[ "version" := VNumber 1 ]} None)
  ∧ (∀ op, Js.assignable sh_version_locked 5%positive
             (mkObject {[ "version" := VNumber 1 ]} None) (name_of op))
  ∧ ∃ st' o',
      Js.Init sh_version_locked env0 5%positive st_with_exports
        = Returned 5%positive st' ∧
      st' !! 5%positive = Some o' ∧
      props o' !! "version" = Some (VNumber 1).
Proof.
  assert (∀ op, Js.assignable sh_version_locked 5%positive
                  (mkObject {[ "version" := VNumber 1 ]} None) (name_of op)) as Ha.
  { intros []; vm_compute; (split; [reflexivity | left; reflexivity]). }
  split; [reflexivity|]. split; [exact Ha|].
  destruct (Init_returns_exports sh_version_locked env0 5%positive
              (mkObject {[ "version" := VNumber 1 ]} None) st_with_exports eq_refl Ha)
    as (f1 & f2 & f3 & f4 & o' & st' & HInit & He & _ & _ & _ & _ & _ & _ & Hkey & _).
  exists st', o'. split; [exact HInit|]. split; [exact He|].
  rewrite Hkey; [reflexivity|].
  simpl. rewrite !not_elem_of_cons. repeat split; try done. apply not_elem_of_nil.
Defined.

(** ** Further properties of [Init] and of loading *)


Lemma Init_post_old st exports o f1 f2 f3 f4 st' l x :
  Init_post st exports o f1 f2 f3 f4 st' →
  st !! l = Some x → l ≠ exports → st' !! l = Some x.
Proof.
  intros [(? & ? & ? & ?) _ _ _ _ _ _ Hframe] Hl Hne.
  rewrite Hframe; [done..|].
  rewrite !not_elem_of_cons. repeat split; try congruence. apply not_elem_of_nil.
Qed.

(** X1.  [Init] makes a working module of any exports object to which the
    four names can be assigned, whatever values the object held before,
    also under the four names: after it, every sequence of calls runs to
    its end, each call returning the fixed answer of its operation, and the
    store stays as [Init] left it. *)
Theorem Init_then_calls sh env exports o (st : Store) :
  st !! exports = Some o →
  (∀ op, Js.assignable sh exports o (name_of op)) →
  ∃ st',
    Js.Init sh env exports st = Returned exports st' ∧
    ∀ env' cs, script env' exports cs st' = Returned (expected cs) st'.
Proof.
  intros Hex Ha.
  destruct (Js_Init_spec sh env exports o st Hex Ha)
    as (f1 & f2 & f3 & f4 & st' & HInit & Hpost).
  exists st'. split; [exact HInit|].
  intros env' cs. apply script_Installed. eapply Init_post_Installed, Hpost.
Qed.

Lemma Init_then_calls_witness :
  st_with_four_names !! 5%positive = Some exports_with_four_names
  ∧ (∀ op, Js.assignable sh_not_extensible 5%positive
             exports_with_four_names (name_of op))
  ∧ ∃ st',
      Js.Init sh_not_extensible env0 5%positive st_with_four_names
        = Returned 5%positive st' ∧
      script env0 5%positive [mkCall isMonitoring []; mkCall stopMonitoring []] st'
      = Returned [VBoolean false; VUndefined] st'.
Proof.
  assert (∀ op, Js.assignable sh_not_extensible 5%positive
                  exports_with_four_names (name_of op)) as Ha.
  { intros []; vm_compute; (split; [reflexivity | right; eexists; reflexivity]). }
  split; [reflexivity|]. split; [exact Ha|].
  destruct (Init_then_calls sh_not_extensible env0 5%positive exports_with_four_names
              st_with_four_names eq_refl Ha) as (st' & HInit & Hcalls).
  exists st'. split; [exact HInit|]. apply Hcalls.
Defined.





(** X4.  The native functions read nothing of the call: with the function
    object taken from the loaded module, a call returns the operation's
    fixed answer and leaves the store as it is under any receiver, any
    environment handle and any arguments, and each native function has the
    same outcome on any two [CallbackInfo]s. *)
Theorem call_ignores_receiver env st :
  ∃ module,
    returned (NODE_API_MODULE env st) = Some module ∧
    (∀ op, ∃ f,
       own_property (loaded env st) module (name_of op) = Some f ∧
       ∀ env' this args,
         Function_Call env' f this args (loaded env st)
         = Returned (constant op) (loaded env st)) ∧
    ∀ cb info1 info2 st', invoke cb info1 st' = invoke cb info2 st'.
Proof.
  destruct (NODE_API_MODULE_spec env st)
    as (m & f1 & f2 & f3 & f4 & st' & Hload & _ & Hpost).
  pose proof (Init_post_Installed _ _ _ _ _ _ _ _ Hpost) as (o & Hm & Hops).
  unfold loaded. rewrite Hload; simpl.
  exists m. split; [done|]. split.
  - intros op. destruct (Hops op) as (f & fo & Hp & Hf & Hcb).
    exists (VObject f). unfold own_property. rewrite Hm; simpl.
    split; [exact Hp|]. intros env' this args.
    unfold Function_Call. rewrite Hf; simpl. rewrite Hcb.
    apply invoke_callback_of.
  - by intros [].
Qed.

(** X5.  Loading the module always succeeds, the module object it yields is
    new to the store, and every object the store held before the load is
    there after it, unchanged. *)
Theorem load_keeps_store env (st : Store) :
  ∃ module,
    returned (NODE_API_MODULE env st) = Some module ∧
    st !! module = None ∧
    is_Some (loaded env st !! module) ∧
    st ⊆ loaded env st.
Proof.
  destruct (NODE_API_MODULE_spec env st)
    as (m & f1 & f2 & f3 & f4 & st' & Hload & Hnew & Hpost).
  unfold loaded. rewrite Hload; simpl.
  exists m. split; [done|]. split; [done|].
  split; [rewrite (post_exports _ _ _ _ _ _ _ _ Hpost); eauto|].
  apply map_subseteq_spec. intros l x Hl.
  assert (l ≠ m) as Hne by congruence.
  eapply Init_post_old; [exact Hpost| |exact Hne].
  by rewrite lookup_insert_ne.
Qed.


